(** * Emission view layer: render-state resolver and tracking schema

    A shallow embedding of two source files of the repository:

    - the render-state resolver factory (the default export that takes a
      Relay container and initial props and returns the function handed
      to the Relay renderer), and
    - the tracking module ([Schema], [track], [pageViewTrack]).

    Besides these, the Gene screen ([lib/containers/gene.js]: its tab and
    sticky-header state, its price-range and summary strings, its render
    methods) and the [console.error] filter of the test set-up
    ([src/setupJest.ts]) are embedded.

    JavaScript objects used as string-keyed maps are [gmap string JsValue];
    the closed-over [retrying] cell and the console are an explicit store
    threaded through a small state-and-exception monad. *)

From Stdlib Require Import ZArith Ascii.
From stdpp Require Import base option strings list gmap fin_maps finite.

Open Scope string_scope.
Open Scope list_scope.

Set Warnings "-register-all".

(** ** JavaScript values *)

(** The values that flow through the two modules.  Numbers are restricted
    to integers (the only numeric literal of the source is [1], in
    [{ flex: 1 }]); functions are opaque handles. *)
Inductive JsValue : Type :=
  | JUndefined
  | JNull
  | JBool (b : bool)
  | JNum (n : Z)
  | JStr (s : string)
  | JFun (handle : nat)
  | JObj (fields : list (string * JsValue)).

(** ECMAScript ToBoolean, as [if (v)], [v && w] and [v || w] apply it. *)
Definition truthy (v : JsValue) : bool :=
  match v with
  | JUndefined | JNull => false
  | JBool b => b
  | JNum n => negb (n =? 0)%Z
  | JStr s => negb (String.eqb s "")
  | JFun _ | JObj _ => true
  end.

(** [a || b] *)
Definition js_or (a b : JsValue) : JsValue := if truthy a then a else b.

(** A props object: own enumerable string-keyed properties. *)
Abbreviation Props := (gmap string JsValue).

(** [{...a, ...b}]: the properties of [a] overwritten by those of [b]. *)
Definition spread (a b : Props) : Props := b ∪ a.

(** ** React elements *)

(** The element types the resolver instantiates: the two imported
    components and whatever Relay container the factory was given. *)
Inductive ComponentType : Type :=
  | LoadFailureView
  | Spinner
  | RelayContainer (name : string).

(** A JSX expression [<T attr... />] evaluates [React.createElement(T, attrs)];
    an element is recorded as that call's component and attribute object. *)
Record ReactElement : Type := createElement {
  el_type : ComponentType;
  el_props : Props;
}.

(** ** The read state handed over by Relay *)

(** [networkError.response]: only the body field is read. *)
Record Response : Type := { _bodyInit : JsValue }.

(** The error object; [response] is absent on a plain [Error]. *)
Record JsError : Type := {
  message : string;
  response : option Response;
}.

(** [ReadyState<P>]: [error] and [props] are an object or null/undefined
    ([None]); [retry] is whatever the client supplied. *)
Record ReadyState : Type := {
  error : option JsError;
  props : option Props;
  retry : JsValue;
}.

(** ** Store, completions and the monad *)

(** One call of [console.error(label, data)]. *)
Record LogEntry : Type := { log_label : string; log_data : JsValue }.

(** The mutable state a resolver call can touch: the [retrying] variable
    captured by the closure and the console. *)
Record Store : Type := {
  retrying : bool;
  console : list LogEntry;
}.

(** How a piece of code ends: normally with a value or by throwing. *)
Inductive Completion (A : Type) : Type :=
  | Normal (a : A)
  | Throw (exn : JsValue).
Arguments Normal {A} a.
Arguments Throw {A} exn.

Definition M (A : Type) : Type := Store → Completion A * Store.

Definition ret {A} (a : A) : M A := λ σ, (Normal a, σ).

Definition bind {A B} (m : M A) (k : A → M B) : M B :=
  λ σ, match m σ with
       | (Normal a, σ') => k a σ'
       | (Throw e, σ') => (Throw e, σ')
       end.

#[global] Instance M_ret : MRet M := @ret.
#[global] Instance M_bind : MBind M := λ A B k m, bind m k.

(** [try { body } catch (e) { handler }] *)
Definition try_catch {A} (body : M A) (handler : JsValue → M A) : M A :=
  λ σ, match body σ with
       | (Normal a, σ') => (Normal a, σ')
       | (Throw e, σ') => handler e σ'
       end.

(** A builtin that touches no state but may throw. *)
Definition lift {A} (c : Completion A) : M A := λ σ, (c, σ).

Definition get_retrying : M bool := λ σ, (Normal (retrying σ), σ).

Definition set_retrying (b : bool) : M unit :=
  λ σ, (Normal tt, {| retrying := b; console := console σ |}).

(** [console.error(label, data)] appends to the console. *)
Definition console_error (label : string) (data : JsValue) : M unit :=
  λ σ, (Normal tt,
        {| retrying := retrying σ;
           console := console σ ++ [ {| log_label := label; log_data := data |} ] |}).

(** ** The resolver *)

(** [{ flex: 1 }] *)
Definition flex1 : JsValue := JObj [("flex", JNum 1)].

(** The line feed that ends the label of the diagnostic message. *)
Definition LF : string := String (Ascii.ascii_of_nat 10) "".

Section Resolver.

(** [JSON.parse], a builtin of the host: it returns the parsed value or
    throws. *)
Variable JSON_parse : JsValue → Completion JsValue.

(** The diagnostic block of the error branch. *)
Definition log_network_error (err : JsError) : M unit :=
  match response err with
  | Some resp =>
      if truthy (_bodyInit resp) then
        let data := js_or (_bodyInit resp) (JStr "{}") in
        data ← try_catch (lift (JSON_parse data)) (λ _, ret data);
        console_error ("Metaphysics Error: " +:+ message err +:+ LF) data
      else ret tt
  | None => ret tt
  end.

(** The arrow function returned by the factory.  [None] in the result
    stands for the [null] the declared return type admits. *)
Definition resolve (Container : string) (initialProps : Props)
    (rs : ReadyState) : M (option ReactElement) :=
  match error rs with
  | Some err =>
      log_network_error err;;
      r ← get_retrying;
      if (r : bool) then
        set_retrying false;;
        ret (Some (createElement LoadFailureView {[ "style" := flex1 ]}))
      else
        set_retrying true;;
        ret (Some (createElement LoadFailureView
                     (<["onRetry" := retry rs]> {[ "style" := flex1 ]})))
  | None =>
      match props rs with
      | Some p =>
          ret (Some (createElement (RelayContainer Container)
                       (spread initialProps p)))
      | None => ret (Some (createElement Spinner {[ "style" := flex1 ]}))
      end
  end.

(** A resolver as the factory returns it: its code together with the
    initial content of the variable it captures. *)
Record Resolver : Type := {
  captured_retrying : bool;
  call : ReadyState → M (option ReactElement);
}.

(** The factory; [initialProps] defaults to [{}] when not supplied. *)
Definition makeResolver (Container : string) (initialProps : option Props)
    : Resolver :=
  {| captured_retrying := false;
     call := resolve Container (default ∅ initialProps) |}.

(** The store in which a freshly made resolver first runs. *)
Definition fresh (r : Resolver) (con : list LogEntry) : Store :=
  {| retrying := captured_retrying r; console := con |}.

(** Successive calls of one resolver, each on the store the previous
    one left. *)
Fixpoint calls (r : Resolver) (inputs : list ReadyState) (σ : Store)
    : list (Completion (option ReactElement)) * Store :=
  match inputs with
  | [] => ([], σ)
  | rs :: rest =>
      let '(out, σ') := call r rs σ in
      let '(outs, σ'') := calls r rest σ' in
      (out :: outs, σ'')
  end.

End Resolver.

(** ** The tracking schema *)

Module Schema.

Inductive PageNames : Type :=
  | ArtistPage
  | ConversationPage
  | ConsignmentsWelcome
  | ConsignmentsOverView
  | ConsignmentsSubmission
  | InboxPage
  | InquiryPage.

Inductive OwnerEntityTypes : Type :=
  | Artist
  | Artwork
  | Conversation
  | Gene
  | Show
  | Invoice
  | Consignment.

Inductive ActionTypes : Type :=
  | Tap
  | Fail
  | Success.

Inductive ActionNames : Type :=
  | ArtistFollow
  | ArtistUnfollow
  | ConversationSelected
  | ConversationSendReply
  | ConversationAttachmentShow
  | ConversationAttachmentArtwork
  | ConversationAttachmentInvoice
  | ConversationLink
  | InquiryCancel
  | InquirySend
  | ConsignmentDraftCreated
  | ConsignmentSubmitted.

(** The string each enum member is initialised with. *)
Definition PageNames_value (p : PageNames) : string :=
  match p with
  | ArtistPage => "Artist"
  | ConversationPage => "Conversation"
  | ConsignmentsWelcome => "ConsignmentsWelcome"
  | ConsignmentsOverView => "ConsignmentsOverview"
  | ConsignmentsSubmission => "ConsignmentsSubmit"
  | InboxPage => "Inbox"
  | InquiryPage => "Inquiry"
  end.

Definition OwnerEntityTypes_value (o : OwnerEntityTypes) : string :=
  match o with
  | Artist => "Artist"
  | Artwork => "Artwork"
  | Conversation => "Conversation"
  | Gene => "Gene"
  | Show => "Show"
  | Invoice => "Invoice"
  | Consignment => "ConsignmentSubmission"
  end.

Definition ActionTypes_value (a : ActionTypes) : string :=
  match a with
  | Tap => "tap"
  | Fail => "fail"
  | Success => "success"
  end.

Definition ActionNames_value (a : ActionNames) : string :=
  match a with
  | ArtistFollow => "artistFollow"
  | ArtistUnfollow => "artistUnfollow"
  | ConversationSelected => "conversationSelected"
  | ConversationSendReply => "conversationSendReply"
  | ConversationAttachmentShow => "conversationAttachmentShow"
  | ConversationAttachmentArtwork => "conversationAttachmentArtwork"
  | ConversationAttachmentInvoice => "conversationAttachmentInvoice"
  | ConversationLink => "conversationLinkUsed"
  | InquiryCancel => "inquiryCancel"
  | InquirySend => "inquirySend"
  | ConsignmentDraftCreated => "consignmentDraftCreated"
  | ConsignmentSubmitted => "consignmentSubmitted"
  end.

(** [interface Global] *)
Record Global : Type := {
  action_type : ActionTypes;
  action_name : ActionNames;
  additional_properties : option Props;
}.

(** [interface Entity extends Global] *)
Record Entity : Type := {
  global : Global;
  owner_id : string;
  owner_slug : string;
  owner_type : OwnerEntityTypes;
}.

(** [interface PageView] *)
Record PageView : Type := {
  context_screen : PageNames;
  context_screen_owner_slug : option string;
  context_screen_owner_id : option string;
  context_screen_owner_type : OwnerEntityTypes;
}.

#[global] Instance OwnerEntityTypes_eq_dec : EqDecision OwnerEntityTypes.
Proof. solve_decision. Defined.

(** The members of [OwnerEntityTypes], in declaration order. *)
Definition OwnerEntityTypes_members : list OwnerEntityTypes :=
  [Artist; Artwork; Conversation; Gene; Show; Invoice; Consignment].

#[global] Instance OwnerEntityTypes_finite : Finite OwnerEntityTypes.
Proof.
  refine {| enum := OwnerEntityTypes_members |}.
  - by apply (bool_decide_unpack _).
  - intros []; unfold OwnerEntityTypes_members; set_solver.
Defined.

(** The object literal of a page-view record: optional fields that are
    not set are absent. *)
Definition PageView_object (pv : PageView) : Props :=
  let opt (k : string) (o : option string) (m : Props) : Props :=
    match o with Some s => <[k := JStr s]> m | None => m end in
  opt "context_screen_owner_slug" (context_screen_owner_slug pv)
    (opt "context_screen_owner_id" (context_screen_owner_id pv)
       (<["context_screen" := JStr (PageNames_value (context_screen pv))]>
          {[ "context_screen_owner_type" :=
               JStr (OwnerEntityTypes_value (context_screen_owner_type pv)) ]})).

End Schema.

(** ** The tracking wrappers *)

(** What the native side has been handed so far, oldest first. *)
Abbreviation Sink := (list Props).

(** Code that may post to the native sink. *)
Definition Native (A : Type) : Type := Sink → A * Sink.

(** Modelled from the spec: [Events.postEvent] of [lib/NativeModules/Events],
    which is not among the sources.  It is the single native-bridge sink: it
    accepts one event-record mapping per call and posts it, fire and forget,
    with no return value and no acknowledgment. *)
Definition postEvent (data : Props) : Native JsValue :=
  λ sink, (JUndefined, sink ++ [data]).

(** [TrackingInfo<T, P, S>]: a record, or a function of the props (the
    state is [null] for a page view). *)
Inductive TrackingInfo : Type :=
  | InfoObject (data : Props)
  | InfoFunction (compute : Props → Props).

(** The options object handed to react-tracking's decorator. *)
Record Options : Type := {
  dispatch : Props → Native JsValue;
  dispatchOnMount : bool;
}.

(** A component definition with the decorator applied:
    [_track(trackingInfo, options)]. *)
Record Tracked : Type := _track {
  tracking_info : TrackingInfo;
  tracking_options : Options;
}.

(** [track]: the decorator itself under a typed name; it configures no
    options of its own. *)
Definition track : TrackingInfo → Options → Tracked := _track.

(** [pageViewTrack] *)
Definition pageViewTrack (trackingInfo : TrackingInfo) : Tracked :=
  _track trackingInfo
    {| dispatch := λ data, postEvent data;
       dispatchOnMount := true |}.

(** What the host framework does to a mounted instance. *)
Inductive Lifecycle : Type :=
  | Mount (incoming : Props)
  | Update (incoming : Props)
  | Unmount.

(** Modelled from the spec: the record a tracking info stands for, given
    the incoming properties (react-tracking is not among the sources). *)
Definition tracking_data (info : TrackingInfo) (incoming : Props) : Props :=
  match info with
  | InfoObject data => data
  | InfoFunction compute => compute incoming
  end.

(** Modelled from the spec: the instrumentation facility (react-tracking,
    not among the sources) at the top-level component that configures the
    dispatch hook: with [dispatchOnMount] set, every mount computes the
    record from the incoming properties and hands it to the hook once;
    updates and unmounts hand it nothing. *)
Definition lifecycle_step (c : Tracked) (ev : Lifecycle) : Native unit :=
  λ sink,
    match ev with
    | Mount incoming =>
        if dispatchOnMount (tracking_options c) then
          (tt, snd (dispatch (tracking_options c)
                      (tracking_data (tracking_info c) incoming) sink))
        else (tt, sink)
    | Update _ | Unmount => (tt, sink)
    end.

(** The sink after a sequence of lifecycle events. *)
Definition lifecycle (c : Tracked) (evs : list Lifecycle) (sink : Sink) : Sink :=
  foldl (λ s ev, snd (lifecycle_step c ev s)) sink evs.

(** The properties of the mounts among the events, in order. *)
Definition mounts (evs : list Lifecycle) : list Props :=
  omap (λ ev, match ev with Mount incoming => Some incoming | _ => None end) evs.

(** ** Strings of the host *)

Module JsString.

(** Whether [sub] occurs in [s] at its very start. *)
Fixpoint starts_with (sub s : string) : bool :=
  match sub, s with
  | EmptyString, _ => true
  | String _ _, EmptyString => false
  | String a sub', String b s' => Ascii.eqb a b && starts_with sub' s'
  end.

(** [s.includes(sub)] *)
Fixpoint includes (sub s : string) : bool :=
  starts_with sub s ||
  match s with
  | EmptyString => false
  | String _ s' => includes sub s'
  end.

(** The scan behind [split]: [skip] characters of a separator just matched
    are still to be passed over, [cur] is the piece being collected. *)
Fixpoint split_scan (sep : string) (skip : nat) (cur s : string) : list string :=
  match s with
  | EmptyString => [cur]
  | String c s' =>
      match skip with
      | S k => split_scan sep k cur s'
      | O =>
          if starts_with sep s
          then cur :: split_scan sep (String.length sep - 1) "" s'
          else split_scan sep 0 (cur +:+ String c "") s'
      end
  end.

(** [s.split(sep)] for a separator that is not empty (the source only
    splits on the literals ["-*"], ["*-"] and ["-"]). *)
Definition split (sep s : string) : list string := split_scan sep 0 "" s.

(** Whether the character occurs in the string. *)
Fixpoint has_char (c : Ascii.ascii) (s : string) : bool :=
  match s with
  | EmptyString => false
  | String b s' => Ascii.eqb c b || has_char c s'
  end.

End JsString.


(** ** The Gene screen *)

Module Gene.

(** [TABS] *)
Definition TABS_WORKS : string := "WORKS".
Definition TABS_ABOUT : string := "ABOUT".

(** [HeaderHeight]: the title of the gene when scrolled, with margins. *)
Definition HeaderHeight : Z := 64.

(** Primitive values, which [===] and [!==] compare by type and content
    (numbers are integers here, so there is no [NaN]). *)
Inductive Prim : Type :=
  | PUndefined
  | PNull
  | PBool (b : bool)
  | PNum (n : Z)
  | PStr (s : string).

#[global] Instance Prim_eq_dec : EqDecision Prim.
Proof. solve_decision. Defined.

Definition prim_value (p : Prim) : JsValue :=
  match p with
  | PUndefined => JUndefined
  | PNull => JNull
  | PBool b => JBool b
  | PNum n => JNum n
  | PStr s => JStr s
  end.

(** [a === b] on primitives. *)
Definition strict_eq (a b : Prim) : bool := bool_decide (a = b).

(** [state]: the selected tab and what the parallax view last reported
    about the sticky header. *)
Record GeneState : Type := {
  selectedTabIndex : Z;
  showingStickyHeader : Prim;
}.

Section Component.

(** The numbers of the host and the builtins and libraries applied to
    them: [parseInt(value, 10)], [n.toLocaleString()],
    [n.toLocaleString('en-US', {style: 'currency', currency: 'USD',
    minimumFractionDigits: 0})] and lodash's [_.startCase]. *)
Variable JsNumber : Type.
Variable parseInt10 : option string → JsNumber.
Variable toLocaleString : JsNumber → string.
Variable toLocaleString_USD : JsNumber → string.
Variable startCase : string → string.

(** [Dimensions.get('window').width], in whole points, and
    [colors['gray-regular']]. *)
Variable window_width : Z.
Variable gray_regular : string.

(** [this.props.gene], as far as the component reads it. *)
Record GeneData : Type := {
  _id : string;
  id : string;
  filtered_artworks_total : JsNumber;
}.

(** [this.props]: the gene and the two Relay variables. *)
Record GeneProps : Type := {
  gene : GeneData;
  medium : string;
  price_range : string;
}.

(** A mounted component: props, state, and how many times [setState] has
    been called on it (each call schedules a render). *)
Record Component : Type := {
  props : GeneProps;
  state : GeneState;
  setState_calls : nat;
}.

(** [this.setState(partial)]: the partial state is merged into the state. *)
Definition setState (merge : GeneState → GeneState) (this : Component)
    : Component :=
  {| props := props this;
     state := merge (state this);
     setState_calls := S (setState_calls this) |}.

(** Attribute values of the JSX the component renders. *)
Inductive Attr : Type :=
  | ANull
  | ABool (b : bool)
  | ANum (n : Z)
  | AStr (s : string)
  | AObj (fields : list (string * Attr))
  | AArr (items : list Attr)
  | AGene (g : GeneData)
  | AMethod (name : string).

(** What a render method returns. *)
Inductive Jsx : Type :=
  | JsxNull
  | JsxUndefined
  | JsxText (s : string)
  | JsxEl (component : string) (attrs : list (string * Attr))
      (children : list Jsx).

Definition componentWillMount (this : Component) : Component :=
  {| props := props this;
     state := {| selectedTabIndex := 0; showingStickyHeader := PNum 1 |};
     setState_calls := setState_calls this |}.

(** [event.nativeEvent.selectedIndex] is the argument. *)
Definition switchSelectionDidChange (selectedIndex : Z) (this : Component)
    : Component :=
  setState (λ st, {| selectedTabIndex := selectedIndex;
                     showingStickyHeader := showingStickyHeader st |}) this.

Definition availableTabs : list string := [TABS_WORKS; TABS_ABOUT].

(** [None] is the [undefined] an index outside the array reads. *)
Definition selectedTabTitle (this : Component) : option string :=
  let i := selectedTabIndex (state this) in
  if (i <? 0)%Z then None else availableTabs !! Z.to_nat i.

Definition renderSectionForTab (this : Component) : Jsx :=
  match selectedTabTitle this with
  | Some title =>
      if String.eqb title TABS_ABOUT then
        JsxEl "About" [("gene", AGene (gene (props this)))] []
      else if String.eqb title TABS_WORKS then
        JsxEl "Artworks"
          [("gene", AGene (gene (props this)));
           ("stateQuery", AMethod "stateQuery");
           ("resolveQuery", AMethod "resolveQuery")] []
      else JsxUndefined
  | None => JsxUndefined
  end.

Definition commonPadding : Z := if (700 <? window_width)%Z then 40 else 20.

Definition showingArtworksSection (this : Component) : bool :=
  match selectedTabTitle this with
  | Some title => String.eqb title TABS_WORKS
  | None => false
  end.

Definition foregroundHeight : option Z := Some 200%Z.

Definition onChangeHeaderVisibility (sticky : Prim) (this : Component)
    : Component :=
  if negb (strict_eq (showingStickyHeader (state this)) sticky) then
    setState (λ st, {| selectedTabIndex := selectedTabIndex st;
                       showingStickyHeader := sticky |}) this
  else this.

(** No sticky header in the about section. *)
Definition stickyHeaderHeight (this : Component) : option Z :=
  if negb (showingArtworksSection this) then None else Some HeaderHeight.

Definition renderStickyHeader (this : Component) : Jsx :=
  if negb (showingArtworksSection this) then JsxNull
  else
    JsxEl "View"
      [("style", AObj [("paddingLeft", ANum commonPadding);
                       ("paddingRight", ANum commonPadding);
                       ("backgroundColor", AStr "white")])]
      [JsxEl "Header"
         [("gene", AGene (gene (props this))); ("shortForm", ABool true)] []].

(** [dollars], local to [priceRangeToHumanReadableString]. *)
Definition dollars (value : option string) : string :=
  toLocaleString_USD (parseInt10 value).

Definition priceRangeToHumanReadableString (range : string) : string :=
  if String.eqb range "*-*" then ""
  else if JsString.includes "-*" range then
    let below := dollars (JsString.split "-*" range !! 0%nat) in
    "Above " +:+ below
  else if JsString.includes "*-" range then
    let below := dollars (last (JsString.split "*-" range)) in
    "Below " +:+ below
  else
    let parts := JsString.split "-" range in
    dollars (parts !! 0%nat) +:+ " - " +:+ dollars (parts !! 1%nat).

Definition artworkQuerySummaryString (this : Component) : string :=
  let works := toLocaleString (filtered_artworks_total (gene (props this))) in
  let medium :=
    if String.eqb (medium (props this)) "*" then ""
    else " ・ " +:+ startCase (medium (props this)) in
  let price_range :=
    if String.eqb (price_range (props this)) "*-*" then ""
    else " ・ " +:+
         priceRangeToHumanReadableString (price_range (props this)) in
  works +:+ " works" +:+ medium +:+ price_range.

(** [topMargin] and [separatorColor] of [renderStickyRefineSection]. *)
Definition topMargin (this : Component) : Z :=
  if truthy (prim_value (showingStickyHeader (state this))) then 0
  else HeaderHeight.

Definition separatorColor (this : Component) : string :=
  if truthy (prim_value (showingStickyHeader (state this))) then "white"
  else gray_regular.

(** Count of the works; sticks to the top of the screen when scrolling. *)
Definition renderStickyRefineSection (this : Component) : Jsx :=
  if negb (showingArtworksSection this) then JsxNull
  else
    JsxEl "View" [("style", AObj [("backgroundColor", AStr "white")])]
      [ JsxEl "Separator"
          [("style", AObj [("marginTop", ANum (topMargin this));
                           ("backgroundColor", AStr (separatorColor this))])]
          [];
        JsxEl "View"
          [("style", AObj [("flexDirection", AStr "row");
                           ("justifyContent", AStr "space-between");
                           ("height", ANum 26);
                           ("marginTop", ANum 12);
                           ("marginBottom", ANum 12);
                           ("paddingLeft", ANum commonPadding);
                           ("paddingRight", ANum commonPadding)])]
          [ JsxEl "SerifText"
              [("style", AObj [("fontStyle", AStr "italic");
                               ("marginTop", ANum 4)])]
              [JsxText (artworkQuerySummaryString this)] ];
        JsxEl "Separator"
          [("style", AObj [("backgroundColor", AStr (separatorColor this))])]
          [] ].

(** [stickyTopMargin] of [render]. *)
Definition stickyTopMargin (this : Component) : Z :=
  if truthy (prim_value (showingStickyHeader (state this))) then 0
  else (- HeaderHeight)%Z.

Definition render (this : Component) : Jsx :=
  JsxEl "ParallaxScrollView"
    [("scrollsToTop", ABool true);
     ("fadeOutForeground", ABool false);
     ("backgroundScrollSpeed", ANum 1);
     ("backgroundColor", AStr "white");
     ("contentBackgroundColor", AStr "white");
     ("renderForeground", AMethod "renderForeground");
     ("stickyHeaderHeight",
        match stickyHeaderHeight this with Some h => ANum h | None => ANull end);
     ("renderStickyHeader", AMethod "renderStickyHeader");
     ("onChangeHeaderVisibility", AMethod "onChangeHeaderVisibility");
     ("stickyHeaderIndices", AArr [ANum 1]);
     ("renderBodyComponentHeader", AMethod "renderStickyRefineSection");
     ("parallaxHeaderHeight",
        match foregroundHeight with Some h => ANum h | None => ANull end);
     ("parallaxHeaderContainerStyles",
        AObj [("marginBottom", ANum (stickyTopMargin this))])]
    [ JsxEl "View"
        [("style", AObj [("marginTop", ANum 20);
                         ("paddingLeft", ANum commonPadding);
                         ("paddingRight", ANum commonPadding)])]
        [renderSectionForTab this] ].

(** [initialVariables] of the Relay container: the fallbacks for when no
    medium or price range is set. *)
Definition initialVariables_medium : string := "*".
Definition initialVariables_price_range : string := "*-*".

End Component.

Arguments props {JsNumber} _.
Arguments state {JsNumber} _.
Arguments setState_calls {JsNumber} _.
Arguments gene {JsNumber} _.
Arguments medium {JsNumber} _.
Arguments price_range {JsNumber} _.
Arguments filtered_artworks_total {JsNumber} _.
Arguments JsxNull {JsNumber}.
Arguments JsxUndefined {JsNumber}.
Arguments setState {JsNumber} merge this.
Arguments componentWillMount {JsNumber} this.
Arguments switchSelectionDidChange {JsNumber} selectedIndex this.
Arguments selectedTabTitle {JsNumber} this.
Arguments renderSectionForTab {JsNumber} this.
Arguments showingArtworksSection {JsNumber} this.
Arguments onChangeHeaderVisibility {JsNumber} sticky this.
Arguments stickyHeaderHeight {JsNumber} this.
Arguments renderStickyHeader {JsNumber} window_width this.
Arguments topMargin {JsNumber} this.
Arguments stickyTopMargin {JsNumber} this.
Arguments dollars {JsNumber} parseInt10 toLocaleString_USD value.
Arguments priceRangeToHumanReadableString {JsNumber} parseInt10
  toLocaleString_USD range.
Arguments artworkQuerySummaryString {JsNumber} parseInt10 toLocaleString
  toLocaleString_USD startCase this.
Arguments renderStickyRefineSection {JsNumber} parseInt10 toLocaleString
  toLocaleString_USD startCase window_width gray_regular this.
Arguments render {JsNumber} window_width this.

End Gene.

(** ** The test set-up's console filter *)

Module SetupJest.

(** The console that was there before: the argument lists of the calls
    [originalConsoleError] has received, oldest first. *)
Abbreviation Console := (list (list JsValue)).

(** The replacement installed as [console.error]; [args] are the arguments
    of the call, of which only the first is named. *)
Definition console_error (args : list JsValue) (original : Console) : Console :=
  let message := default JUndefined (head args) in
  match message with
  | JStr m =>
      if JsString.includes "PropTypes has been moved to a separate package." m
         || JsString.includes "React.createClass is no longer supported." m
         || JsString.includes
              "Check the render method of `ScrollViewMock`. It was passed a child from ListViewMock." m
         || JsString.includes
              "setState(...): Can only update a mounted or mounting component." m
      then original
      else original ++ [[message]]
  | _ => original ++ [[message]]
  end.

(** The four phrases the filter looks for. *)
Definition silenced : list string :=
  [ "PropTypes has been moved to a separate package.";
    "React.createClass is no longer supported.";
    "Check the render method of `ScrollViewMock`. It was passed a child from ListViewMock.";
    "setState(...): Can only update a mounted or mounting component." ].

End SetupJest.

(** ** Counting errors in a sequence of read states *)

(** How many of the read states carry an error. *)
Definition errors_in (inputs : list ReadyState) : nat :=
  length (filter (λ rs, is_Some (error rs)) inputs).

(** Stand-ins for the number formatting of the host, used in examples: a
    number is kept as the text it was parsed from. *)
Definition sample_parseInt (value : option string) : option string := value.
Definition sample_USD (n : option string) : string := "$" +:+ default "NaN" n.

(** A mounted Gene screen for the examples. *)
Definition sample_gene (price_range : string)
    : Gene.Component (option string) :=
  {| Gene.props :=
       {| Gene.gene := {| Gene._id := "4d8b92b34eb68a1b2c0003f4";
                          Gene.id := "pop-art";
                          Gene.filtered_artworks_total := Some "1204" |};
          Gene.medium := "*";
          Gene.price_range := price_range |};
     Gene.state := {| Gene.selectedTabIndex := 0;
                      Gene.showingStickyHeader := Gene.PNum 1 |};
     Gene.setState_calls := 0 |}.

(** ** Auxiliary definitions for the statements *)

(** What one error call writes to the console: nothing when the error
    carries no truthy body, otherwise one entry whose data is the parsed
    body, or the body as it came when parsing threw. *)
Definition logged (JSON_parse : JsValue → Completion JsValue)
    (err : JsError) : list LogEntry :=
  match response err with
  | Some resp =>
      if truthy (_bodyInit resp) then
        [ {| log_label := "Metaphysics Error: " +:+ message err +:+ LF;
             log_data := match JSON_parse (_bodyInit resp) with
                         | Normal v => v
                         | Throw _ => _bodyInit resp
                         end |} ]
      else []
  | None => []
  end.

(** Two successive calls of one resolver on the same read state, the second
    on the store the first one left, give the same output. *)
Definition successive_calls_agree (r : Resolver) (rs : ReadyState)
    (σ : Store) : Prop :=
  fst (call r rs σ) = fst (call r rs (snd (call r rs σ))).

(** A small stand-in for [JSON.parse] used in the examples: it knows the
    empty object and [null], and throws on everything else. *)
Definition sample_parse (v : JsValue) : Completion JsValue :=
  match v with
  | JStr s =>
      if String.eqb s "{}" then Normal (JObj [])
      else if String.eqb s "null" then Normal JNull
      else Throw (JStr "SyntaxError")
  | _ => Throw (JStr "SyntaxError")
  end.

(** Sample read states. *)
Definition sample_error (body : string) : ReadyState :=
  {| error := Some {| message := "Network request failed";
                      response := Some {| _bodyInit := JStr body |} |};
     props := None;
     retry := JFun 7 |}.

Definition sample_props (p : Props) : ReadyState :=
  {| error := None; props := Some p; retry := JFun 7 |}.

Definition sample_loading : ReadyState :=
  {| error := None; props := None; retry := JFun 7 |}.

(** ** Running the resolver *)

Section ResolverFacts.

Variable JSON_parse : JsValue → Completion JsValue.
Variable Container : string.
Variable initialProps : Props.

Lemma log_network_error_run (err : JsError) (σ : Store) :
  log_network_error JSON_parse err σ =
    (Normal tt, {| retrying := retrying σ;
                   console := console σ ++ logged JSON_parse err |}).
Proof.
  unfold log_network_error, logged.
  destruct (response err) as [resp|]; cycle 1.
  { destruct σ; cbn. by rewrite app_nil_r. }
  destruct (truthy (_bodyInit resp)) eqn:Hbody; cycle 1.
  { destruct σ; cbn. by rewrite app_nil_r. }
  unfold js_or. rewrite Hbody.
  unfold mbind, M_bind, bind, try_catch, lift, ret, console_error.
  by destruct (JSON_parse (_bodyInit resp)).
Qed.

(** An error call: it ends normally, with the failure view chosen by the
    flag, the flag negated and the diagnostics appended. *)
Lemma resolve_error_run (rs : ReadyState) (err : JsError) (σ : Store) :
  error rs = Some err →
  resolve JSON_parse Container initialProps rs σ =
    (Normal (Some (createElement LoadFailureView
                     (if retrying σ then {[ "style" := flex1 ]}
                      else <["onRetry" := retry rs]> {[ "style" := flex1 ]}))),
     {| retrying := negb (retrying σ);
        console := console σ ++ logged JSON_parse err |}).
Proof.
  intros Herr. unfold resolve. rewrite Herr.
  unfold mbind, M_bind, bind. rewrite log_network_error_run.
  unfold get_retrying; cbn.
  by destruct (retrying σ).
Qed.

(** A call without an error: the store is left as it was. *)
Lemma resolve_no_error_run (rs : ReadyState) (σ : Store) :
  error rs = None →
  resolve JSON_parse Container initialProps rs σ =
    (Normal (Some match props rs with
                  | Some p => createElement (RelayContainer Container)
                                (spread initialProps p)
                  | None => createElement Spinner {[ "style" := flex1 ]}
                  end), σ).
Proof.
  intros Herr. unfold resolve. rewrite Herr.
  by destruct (props rs).
Qed.

End ResolverFacts.

Lemma onRetry_set (f : JsValue) :
  (<["onRetry" := f]> ({[ "style" := flex1 ]} : Props) : Props) !! "onRetry" = Some f.
Proof. apply lookup_insert_eq. Qed.

Lemma onRetry_unset :
  ({[ "style" := flex1 ]} : Props) !! "onRetry" = None.
Proof. by apply lookup_singleton_ne. Qed.

Lemma failure_views_differ (f : JsValue) :
  createElement LoadFailureView (<["onRetry" := f]> {[ "style" := flex1 ]}) ≠
  createElement LoadFailureView {[ "style" := flex1 ]}.
Proof.
  intros Heq. apply (f_equal (λ e, el_props e !! "onRetry")) in Heq.
  cbn in Heq. by rewrite onRetry_set, onRetry_unset in Heq.
Qed.

(** ** The error branch and its one-shot suppression *)

(** C1: a resolver fresh from the factory captures [retrying = false]; an
    error call made while the flag is false returns the failure view with
    the supplied retry callback and the [{ flex: 1 }] style and sets the flag;
    an error call made while the flag is true returns the failure view with
    the same style and no retry callback and clears the flag; on
    [error, error, props] a fresh resolver returns the failure view with
    retry, the failure view without retry, then the container with
    [initialProps] merged under the delivered props. *)
Theorem resolver_error_toggles_retry
    (JSON_parse : JsValue → Completion JsValue)
    (Container : string) (initialProps : option Props) :
  let r := makeResolver JSON_parse Container initialProps in
  captured_retrying r = false ∧
  (∀ rs err σ, error rs = Some err → retrying σ = false →
     ∃ σ', call r rs σ =
             (Normal (Some (createElement LoadFailureView
                              (<["onRetry" := retry rs]> {[ "style" := flex1 ]}))),
              σ')
           ∧ retrying σ' = true) ∧
  (∀ rs err σ, error rs = Some err → retrying σ = true →
     ∃ σ', call r rs σ =
             (Normal (Some (createElement LoadFailureView {[ "style" := flex1 ]})),
              σ')
           ∧ ({[ "style" := flex1 ]} : Props) !! "onRetry" = None
           ∧ retrying σ' = false) ∧
  (∀ rs1 rs2 rs3 e1 e2 p con,
     error rs1 = Some e1 → error rs2 = Some e2 →
     error rs3 = None → props rs3 = Some p →
     fst (calls r [rs1; rs2; rs3] (fresh r con)) =
       [ Normal (Some (createElement LoadFailureView
                         (<["onRetry" := retry rs1]> {[ "style" := flex1 ]})));
         Normal (Some (createElement LoadFailureView {[ "style" := flex1 ]}));
         Normal (Some (createElement (RelayContainer Container)
                         (spread (default ∅ initialProps) p))) ]).
Proof.
  cbn zeta. split; [done|]. split; [|split].
  - intros rs err σ Herr Hflag. eexists. split.
    + cbn [call makeResolver]. rewrite (resolve_error_run _ _ _ _ _ _ Herr).
      rewrite Hflag. reflexivity.
    + reflexivity.
  - intros rs err σ Herr Hflag. eexists. split; [|split].
    + cbn [call makeResolver]. rewrite (resolve_error_run _ _ _ _ _ _ Herr).
      rewrite Hflag. reflexivity.
    + apply onRetry_unset.
    + reflexivity.
  - intros rs1 rs2 rs3 e1 e2 p con H1 H2 H3 Hp.
    unfold calls. cbn [call makeResolver].
    rewrite (resolve_error_run _ _ _ _ _ _ H1).
    rewrite (resolve_error_run _ _ _ _ _ _ H2).
    rewrite (resolve_no_error_run _ _ _ _ _ H3), Hp.
    reflexivity.
Qed.

Lemma resolver_error_toggles_retry_witness :
  let r := makeResolver sample_parse "Artist" (Some {[ "artistID" := JStr "banksy" ]}) in
  fst (call r (sample_error "<html>") (fresh r [])) =
    Normal (Some (createElement LoadFailureView
                    (<["onRetry" := JFun 7]> {[ "style" := flex1 ]}))) ∧
  fst (call r (sample_error "<html>")
         {| retrying := true; console := [] |}) =
    Normal (Some (createElement LoadFailureView {[ "style" := flex1 ]})) ∧
  fst (calls r [sample_error "<html>"; sample_error "{}";
                sample_props {[ "artistID" := JStr "kaws" ]}] (fresh r [])) =
    [ Normal (Some (createElement LoadFailureView
                      (<["onRetry" := JFun 7]> {[ "style" := flex1 ]})));
      Normal (Some (createElement LoadFailureView {[ "style" := flex1 ]}));
      Normal (Some (createElement (RelayContainer "Artist")
                      (spread {[ "artistID" := JStr "banksy" ]}
                              {[ "artistID" := JStr "kaws" ]}))) ].
Proof.
  intros r.
  destruct (resolver_error_toggles_retry sample_parse "Artist"
              (Some {[ "artistID" := JStr "banksy" ]}))
    as (_ & Hfirst & Hsecond & Hseq).
  split; [|split].
  - destruct (Hfirst (sample_error "<html>") _ (fresh r []) eq_refl eq_refl)
      as (σ' & Hcall & _).
    subst r. by rewrite Hcall.
  - destruct (Hsecond (sample_error "<html>") _
                {| retrying := true; console := [] |} eq_refl eq_refl)
      as (σ' & Hcall & _).
    subst r. by rewrite Hcall.
  - exact (Hseq (sample_error "<html>") (sample_error "{}")
             (sample_props {[ "artistID" := JStr "kaws" ]}) _ _ _ []
             eq_refl eq_refl eq_refl eq_refl).
Defined.

(** ** Dependence on the captured flag *)

(** C2, as stated, fails: on an error read state a fresh resolver answers
    the first call with the retry callback and the second without it. *)
Lemma resolver_successive_calls_differ :
  let r := makeResolver sample_parse "Artist" None in
  ¬ successive_calls_agree r (sample_error "{}") (fresh r []).
Proof.
  intros r. unfold successive_calls_agree. subst r. cbn [call makeResolver].
  rewrite !(resolve_error_run _ _ _ (sample_error "{}") _ _ eq_refl).
  cbn [fst snd retrying fresh captured_retrying makeResolver negb].
  intros Heq. apply (failure_views_differ (retry (sample_error "{}"))).
  congruence.
Qed.

(** C2 (amended): the output of a call is a function of the read state and
    of the captured [retrying] flag, and of nothing else in the store; on
    a read state without an error it is a function of the read state alone,
    so that two successive calls on it give equal outputs. *)
Theorem resolver_output_function_of_input_and_flag
    (JSON_parse : JsValue → Completion JsValue)
    (Container : string) (initialProps : option Props) (rs : ReadyState) :
  let r := makeResolver JSON_parse Container initialProps in
  (∀ σ1 σ2, retrying σ1 = retrying σ2 →
     fst (call r rs σ1) = fst (call r rs σ2)) ∧
  (error rs = None →
     (∀ σ1 σ2, fst (call r rs σ1) = fst (call r rs σ2)) ∧
     (∀ σ, successive_calls_agree r rs σ)).
Proof.
  cbn zeta. cbn [call makeResolver]. split.
  - intros σ1 σ2 Hflag. destruct (error rs) as [err|] eqn:Herr.
    + rewrite !(resolve_error_run _ _ _ _ _ _ Herr). cbn. by rewrite Hflag.
    + by rewrite !(resolve_no_error_run _ _ _ _ _ Herr).
  - intros Herr. unfold successive_calls_agree. cbn [call makeResolver].
    split; intros; by rewrite !(resolve_no_error_run _ _ _ _ _ Herr).
Qed.

Lemma resolver_output_function_of_input_and_flag_witness :
  let r := makeResolver sample_parse "Artist" None in
  fst (call r (sample_error "{}") {| retrying := true; console := [] |}) =
  fst (call r (sample_error "{}")
         {| retrying := true;
            console := [ {| log_label := "earlier"; log_data := JNull |} ] |}) ∧
  successive_calls_agree r sample_loading (fresh r []).
Proof.
  intros r.
  destruct (resolver_output_function_of_input_and_flag sample_parse "Artist"
              None (sample_error "{}")) as [Hflag _].
  destruct (resolver_output_function_of_input_and_flag sample_parse "Artist"
              None sample_loading) as [_ Hpure].
  split.
  - apply Hflag. reflexivity.
  - apply (Hpure eq_refl).
Defined.

(** ** The props branch *)

(** C3: on a read state with props and no error the resolver returns the
    container rendered with [{...initialProps, ...props}] and touches
    nothing; every key of the delivered props carries the delivered value,
    every other key carries what [initialProps] has; [{a: 1}] under
    [{a: 2, b: 3}] gives [{a: 2, b: 3}]. *)
Theorem resolver_props_merge
    (JSON_parse : JsValue → Completion JsValue)
    (Container : string) (initialProps : option Props)
    (rs : ReadyState) (p : Props) (σ : Store) :
  error rs = None → props rs = Some p →
  let merged := spread (default ∅ initialProps) p in
  call (makeResolver JSON_parse Container initialProps) rs σ =
    (Normal (Some (createElement (RelayContainer Container) merged)), σ) ∧
  (∀ k v, p !! k = Some v → merged !! k = Some v) ∧
  (∀ k, p !! k = None → merged !! k = default ∅ initialProps !! k) ∧
  spread {[ "a" := JNum 1 ]} (<["b" := JNum 3]> {[ "a" := JNum 2 ]}) =
    <["b" := JNum 3]> {[ "a" := JNum 2 ]}.
Proof.
  intros Herr Hp merged. subst merged. unfold spread. split; [|split; [|split]].
  - cbn [call makeResolver]. rewrite (resolve_no_error_run _ _ _ _ _ Herr).
    by rewrite Hp.
  - intros k v Hk. by apply lookup_union_Some_l.
  - intros k Hk. by apply lookup_union_r.
  - apply map_eq. intros k.
    destruct (decide (k = "a")) as [->|Ha]; [done|].
    destruct (decide (k = "b")) as [->|Hb]; [done|].
    rewrite lookup_union_r.
    + rewrite lookup_singleton_ne by done.
      by rewrite lookup_insert_ne, lookup_singleton_ne by done.
    + by rewrite lookup_insert_ne, lookup_singleton_ne by done.
Qed.

Lemma resolver_props_merge_witness :
  call (makeResolver sample_parse "Artist" (Some {[ "a" := JNum 1 ]}))
    (sample_props (<["b" := JNum 3]> {[ "a" := JNum 2 ]}))
    {| retrying := false; console := [] |} =
    (Normal (Some (createElement (RelayContainer "Artist")
                     (spread {[ "a" := JNum 1 ]}
                             (<["b" := JNum 3]> {[ "a" := JNum 2 ]})))),
     {| retrying := false; console := [] |}).
Proof.
  exact (proj1 (resolver_props_merge sample_parse "Artist"
                  (Some {[ "a" := JNum 1 ]})
                  (sample_props (<["b" := JNum 3]> {[ "a" := JNum 2 ]}))
                  (<["b" := JNum 3]> {[ "a" := JNum 2 ]})
                  {| retrying := false; console := [] |} eq_refl eq_refl)).
Defined.

(** ** Diagnostics on the error branch *)

(** C4: when the error carries a response with a truthy body, the resolver
    hands the body to [JSON.parse] and logs one entry, holding the parsed
    value when parsing succeeds and the body as it came when parsing
    throws; in either case the call ends normally (nothing is thrown) and
    returns a failure view; in particular a throwing [JSON.parse] leaves the
    output what it is for a body that parses. *)
Theorem resolver_swallows_parse_failure
    (JSON_parse : JsValue → Completion JsValue)
    (Container : string) (initialProps : option Props)
    (rs : ReadyState) (err : JsError) (resp : Response) (σ : Store) :
  error rs = Some err → response err = Some resp →
  truthy (_bodyInit resp) = true →
  ∃ el σ',
    call (makeResolver JSON_parse Container initialProps) rs σ =
      (Normal (Some el), σ') ∧
    el_type el = LoadFailureView ∧
    el_props el !! "style" = Some flex1 ∧
    console σ' =
      console σ ++
        [ {| log_label := "Metaphysics Error: " +:+ message err +:+ LF;
             log_data := match JSON_parse (_bodyInit resp) with
                         | Normal v => v
                         | Throw _ => _bodyInit resp
                         end |} ] ∧
    fst (call (makeResolver (λ _, Throw JNull) Container initialProps) rs σ) =
      Normal (Some el).
Proof.
  intros Herr Hresp Hbody. do 2 eexists. cbn [call makeResolver].
  rewrite !(resolve_error_run _ _ _ _ _ _ Herr).
  split; [reflexivity|]. cbn [el_type el_props console fst].
  split; [done|]. split; [|split; [|done]].
  - destruct (retrying σ); [apply lookup_singleton_eq|].
    rewrite lookup_insert_ne by done. apply lookup_singleton_eq.
  - unfold logged. by rewrite Hresp, Hbody.
Qed.

Lemma resolver_swallows_parse_failure_witness :
  ∃ el σ',
    call (makeResolver sample_parse "Artist" None)
      (sample_error "<html>502 Bad Gateway</html>")
      {| retrying := false; console := [] |} = (Normal (Some el), σ') ∧
    el_type el = LoadFailureView ∧
    console σ' =
      [ {| log_label := "Metaphysics Error: Network request failed" +:+ LF;
           log_data := JStr "<html>502 Bad Gateway</html>" |} ].
Proof.
  destruct (resolver_swallows_parse_failure sample_parse "Artist" None
              (sample_error "<html>502 Bad Gateway</html>") _ _
              {| retrying := false; console := [] |}
              eq_refl eq_refl eq_refl)
    as (el & σ' & Hcall & Htype & _ & Hlog & _).
  exists el, σ'. split; [exact Hcall|]. split; [exact Htype|exact Hlog].
Defined.

(** ** The loading branch *)

(** C7: on a read state with neither error nor props the resolver returns
    the [Spinner] with the [{ flex: 1 }] style, and that is the style every
    failure view it returns carries. *)
Theorem resolver_loading_spinner
    (JSON_parse : JsValue → Completion JsValue)
    (Container : string) (initialProps : option Props)
    (rs : ReadyState) (σ : Store) :
  error rs = None → props rs = None →
  let r := makeResolver JSON_parse Container initialProps in
  call r rs σ =
    (Normal (Some (createElement Spinner {[ "style" := flex1 ]})), σ) ∧
  ({[ "style" := flex1 ]} : Props) !! "style" = Some flex1 ∧
  (∀ rs' err σ', error rs' = Some err →
     ∃ el, fst (call r rs' σ') = Normal (Some el) ∧
           el_type el = LoadFailureView ∧
           el_props el !! "style" = Some flex1).
Proof.
  intros Herr Hp r. subst r. cbn [call makeResolver].
  split; [|split].
  - rewrite (resolve_no_error_run _ _ _ _ _ Herr). by rewrite Hp.
  - apply lookup_singleton_eq.
  - intros rs' err σ' Herr'. eexists.
    rewrite (resolve_error_run _ _ _ _ _ _ Herr').
    split; [reflexivity|]. split; [done|]. cbn [el_props].
    destruct (retrying σ'); [apply lookup_singleton_eq|].
    rewrite lookup_insert_ne by done. apply lookup_singleton_eq.
Qed.

Lemma resolver_loading_spinner_witness :
  call (makeResolver sample_parse "Gene" None) sample_loading
    {| retrying := true; console := [] |} =
    (Normal (Some (createElement Spinner {[ "style" := flex1 ]})),
     {| retrying := true; console := [] |}).
Proof.
  exact (proj1 (resolver_loading_spinner sample_parse "Gene" None
                  sample_loading {| retrying := true; console := [] |}
                  eq_refl eq_refl)).
Defined.

(** ** Frame: what the other branches leave alone *)

(** C9: a call on a read state without an error (props or loading) leaves
    the store, and with it the captured flag, as it was; an error call
    negates the flag; so on [error, props-or-loading, error] a fresh
    resolver answers the second error with the failure view without a
    retry callback. *)
Theorem resolver_flag_only_toggled_by_errors
    (JSON_parse : JsValue → Completion JsValue)
    (Container : string) (initialProps : option Props) :
  let r := makeResolver JSON_parse Container initialProps in
  (∀ rs σ, error rs = None →
     snd (call r rs σ) = σ ∧ retrying (snd (call r rs σ)) = retrying σ) ∧
  (∀ rs err σ, error rs = Some err →
     retrying (snd (call r rs σ)) = negb (retrying σ)) ∧
  (∀ rs1 mid rs3 e1 e3 con,
     error rs1 = Some e1 → error mid = None → error rs3 = Some e3 →
     ∃ out,
       fst (calls r [rs1; mid; rs3] (fresh r con)) =
         [ Normal (Some (createElement LoadFailureView
                           (<["onRetry" := retry rs1]> {[ "style" := flex1 ]})));
           out;
           Normal (Some (createElement LoadFailureView {[ "style" := flex1 ]})) ]
       ∧ ({[ "style" := flex1 ]} : Props) !! "onRetry" = None).
Proof.
  cbn zeta. split; [|split].
  - intros rs σ Herr. cbn [call makeResolver].
    by rewrite (resolve_no_error_run _ _ _ _ _ Herr).
  - intros rs err σ Herr. cbn [call makeResolver].
    by rewrite (resolve_error_run _ _ _ _ _ _ Herr).
  - intros rs1 mid rs3 e1 e3 con H1 H2 H3. eexists.
    unfold calls. cbn [call makeResolver].
    rewrite (resolve_error_run _ _ _ _ _ _ H1).
    rewrite (resolve_no_error_run _ _ _ _ _ H2).
    rewrite (resolve_error_run _ _ _ _ _ _ H3).
    split; [reflexivity|apply onRetry_unset].
Qed.

Lemma resolver_flag_only_toggled_by_errors_witness :
  let r := makeResolver sample_parse "Artist" None in
  retrying (snd (call r sample_loading {| retrying := true; console := [] |}))
    = true ∧
  retrying (snd (call r (sample_error "{}") (fresh r []))) = true ∧
  ∃ out,
    fst (calls r [sample_error "{}"; sample_props ∅; sample_error "{}"]
           (fresh r [])) =
      [ Normal (Some (createElement LoadFailureView
                        (<["onRetry" := JFun 7]> {[ "style" := flex1 ]})));
        out;
        Normal (Some (createElement LoadFailureView {[ "style" := flex1 ]})) ].
Proof.
  intros r.
  destruct (resolver_flag_only_toggled_by_errors sample_parse "Artist" None)
    as (Hframe & Htoggle & Hseq).
  split; [|split].
  - exact (proj2 (Hframe sample_loading {| retrying := true; console := [] |}
                    eq_refl)).
  - exact (Htoggle (sample_error "{}") _ (fresh r []) eq_refl).
  - destruct (Hseq (sample_error "{}") (sample_props ∅) (sample_error "{}")
                _ _ [] eq_refl eq_refl eq_refl) as (out & Hout & _).
    exists out. exact Hout.
Defined.

(** ** The result is never null *)

(** C10: whatever the read state and the store, a call ends normally and
    returns an element; the [null] of the declared return type is not
    produced, and nothing is thrown. *)
Theorem resolver_never_null
    (JSON_parse : JsValue → Completion JsValue)
    (Container : string) (initialProps : option Props)
    (rs : ReadyState) (σ : Store) :
  ∃ el, fst (call (makeResolver JSON_parse Container initialProps) rs σ) =
          Normal (Some el).
Proof.
  cbn [call makeResolver]. destruct (error rs) as [err|] eqn:Herr.
  - rewrite (resolve_error_run _ _ _ _ _ _ Herr). by eexists.
  - rewrite (resolve_no_error_run _ _ _ _ _ Herr). by eexists.
Qed.

(** ** Tracking *)

Lemma lifecycle_pageViewTrack (info : TrackingInfo) (evs : list Lifecycle)
    (sink : Sink) :
  lifecycle (pageViewTrack info) evs sink =
    sink ++ (tracking_data info <$> mounts evs).
Proof.
  unfold lifecycle. revert sink.
  induction evs as [|ev evs IH]; intros sink; cbn [foldl].
  - by rewrite app_nil_r.
  - rewrite IH. destruct ev as [incoming| |]; cbn; [|done..].
    by rewrite <- app_assoc.
Qed.

Lemma mounts_updates (updates : list Props) : mounts (Update <$> updates) = [].
Proof. unfold mounts. by induction updates. Qed.

(** C5: for a component wrapped with [pageViewTrack], the sink receives,
    for each mount and in order, the one record computed from that mount's
    incoming properties, and nothing else: a mount followed by any number
    of updates posts exactly one record. *)
Theorem pageViewTrack_dispatches_once_per_mount
    (trackingInfo : TrackingInfo) (sink : Sink) :
  (∀ evs, lifecycle (pageViewTrack trackingInfo) evs sink =
            sink ++ (tracking_data trackingInfo <$> mounts evs)) ∧
  (∀ incoming updates,
     lifecycle (pageViewTrack trackingInfo)
       (Mount incoming :: (Update <$> updates)) sink =
       sink ++ [tracking_data trackingInfo incoming]) ∧
  (∀ updates,
     lifecycle (pageViewTrack trackingInfo) (Update <$> updates) sink = sink).
Proof.
  split; [|split].
  - intros evs. apply lifecycle_pageViewTrack.
  - intros incoming updates. rewrite lifecycle_pageViewTrack.
    change (mounts (Mount incoming :: (Update <$> updates)))
      with (incoming :: mounts (Update <$> updates)).
    by rewrite mounts_updates.
  - intros updates.
    by rewrite lifecycle_pageViewTrack, mounts_updates, app_nil_r.
Qed.

(** The consignments welcome screen of the module's documentation: one
    mount and two updates post its page view once. *)
Example welcome_page_view_posted_once (p0 p1 p2 : Props) :
  let welcome :=
    {| Schema.context_screen := Schema.ConsignmentsWelcome;
       Schema.context_screen_owner_slug := None;
       Schema.context_screen_owner_id := None;
       Schema.context_screen_owner_type := Schema.Consignment |} in
  lifecycle (pageViewTrack (InfoObject (Schema.PageView_object welcome)))
    [Mount p0; Update p1; Update p2] [] =
    [ <["context_screen" := JStr "ConsignmentsWelcome"]>
        {[ "context_screen_owner_type" := JStr "ConsignmentSubmission" ]} ].
Proof. intros welcome. by rewrite lifecycle_pageViewTrack. Qed.

(** C6: the dispatch hook that [pageViewTrack] configures is [postEvent]
    applied to the record it is handed: one call appends that record,
    unchanged, to what the sink has received and returns [undefined]; two
    calls with the same record append it twice. *)
Theorem dispatch_forwards_to_postEvent
    (trackingInfo : TrackingInfo) (data : Props) (sink : Sink) :
  let hook := dispatch (tracking_options (pageViewTrack trackingInfo)) in
  hook data = postEvent data ∧
  hook data sink = (JUndefined, sink ++ [data]) ∧
  snd (hook data (snd (hook data sink))) = sink ++ [data; data] ∧
  length (snd (hook data (snd (hook data sink)))) = 2 + length sink.
Proof.
  cbn. unfold postEvent. cbn. rewrite <- app_assoc. cbn.
  repeat split. rewrite length_app. cbn. lia.
Qed.

(** C8: the [owner_type] of an [Entity] record is one of the seven members
    of [OwnerEntityTypes]; the type has exactly seven inhabitants, and they
    stand for seven distinct fixed strings. *)
Theorem owner_type_closed_enumeration (e : Schema.Entity) :
  Schema.owner_type e ∈
    [Schema.Artist; Schema.Artwork; Schema.Conversation; Schema.Gene;
     Schema.Show; Schema.Invoice; Schema.Consignment] ∧
  card Schema.OwnerEntityTypes = 7 ∧
  Schema.OwnerEntityTypes_value <$> enum Schema.OwnerEntityTypes =
    ["Artist"; "Artwork"; "Conversation"; "Gene"; "Show"; "Invoice";
     "ConsignmentSubmission"] ∧
  NoDup (Schema.OwnerEntityTypes_value <$> enum Schema.OwnerEntityTypes).
Proof.
  split; [|split; [|split]].
  - destruct (Schema.owner_type e); set_solver.
  - reflexivity.
  - reflexivity.
  - by apply (bool_decide_unpack _).
Qed.

(** ** String facts *)

Lemma string_app_cons (c : Ascii.ascii) (a b : string) :
  String c a +:+ b = String c (a +:+ b).
Proof. reflexivity. Qed.

Lemma string_app_nil_r (s : string) : s +:+ "" = s.
Proof.
  induction s as [|c s IH]; [done|]. by rewrite string_app_cons, IH.
Qed.

Lemma string_app_assoc (a b c : string) : (a +:+ b) +:+ c = a +:+ b +:+ c.
Proof.
  induction a as [|x a IH]; [done|]. by rewrite !string_app_cons, IH.
Qed.

Lemma starts_with_cons (a b : Ascii.ascii) (sub s : string) :
  JsString.starts_with (String a sub) (String b s) =
    Ascii.eqb a b && JsString.starts_with sub s.
Proof. reflexivity. Qed.

Lemma split_scan_cons (sep cur : string) (c : Ascii.ascii) (s : string) :
  JsString.split_scan sep 0 cur (String c s) =
    if JsString.starts_with sep (String c s)
    then cur :: JsString.split_scan sep (String.length sep - 1) "" s
    else JsString.split_scan sep 0 (cur +:+ String c "") s.
Proof. reflexivity. Qed.

Lemma starts_with_app (sub post : string) :
  JsString.starts_with sub (sub +:+ post) = true.
Proof.
  induction sub as [|c sub IH]; [done|].
  rewrite string_app_cons. cbn. by rewrite Ascii.eqb_refl, IH.
Qed.

Lemma starts_with_elim (sub s : string) :
  JsString.starts_with sub s = true → ∃ post, s = sub +:+ post.
Proof.
  revert s. induction sub as [|c sub IH]; intros s H.
  - by exists s.
  - destruct s as [|d s]; [done|]. cbn in H.
    apply andb_prop in H as [Hc Hs]. apply Ascii.eqb_eq in Hc as ->.
    destruct (IH _ Hs) as [post ->]. by exists post.
Qed.

(** [includes] finds every occurrence. *)
Lemma includes_intro (sub pre post : string) :
  JsString.includes sub (pre +:+ sub +:+ post) = true.
Proof.
  induction pre as [|c pre IH].
  - change ("" +:+ sub +:+ post) with (sub +:+ post).
    destruct (sub +:+ post) eqn:E; cbn; rewrite <- ?E, starts_with_app; done.
  - rewrite string_app_cons. cbn. rewrite IH. apply orb_true_r.
Qed.

(** [includes] finds nothing else. *)
Lemma includes_elim (sub s : string) :
  JsString.includes sub s = true → ∃ pre post, s = pre +:+ sub +:+ post.
Proof.
  induction s as [|c s IH]; cbn; intros H.
  - rewrite orb_false_r in H. destruct (starts_with_elim _ _ H) as [post ->].
    by exists "", post.
  - apply orb_prop in H as [H|H].
    + destruct (starts_with_elim _ _ H) as [post ->]. by exists "", post.
    + destruct (IH H) as (pre & post & ->). by exists (String c pre), post.
Qed.

Lemma has_char_app (c : Ascii.ascii) (a b : string) :
  JsString.has_char c (a +:+ b) = JsString.has_char c a || JsString.has_char c b.
Proof.
  induction a as [|x a IH]; [done|].
  rewrite string_app_cons. cbn. by rewrite IH, orb_assoc.
Qed.

(** A string without a character includes nothing that has it. *)
Lemma includes_without_char (c : Ascii.ascii) (sub s : string) :
  JsString.has_char c sub = true → JsString.has_char c s = false →
  JsString.includes sub s = false.
Proof.
  intros Hsub Hs. destruct (JsString.includes sub s) eqn:E; [|done].
  destruct (includes_elim _ _ E) as (pre & post & ->).
  rewrite !has_char_app, Hsub, orb_true_l, orb_true_r in Hs. done.
Qed.

(** Nothing to split on: one piece, the string itself. *)
Lemma split_scan_no_match (sep cur s : string) :
  JsString.includes sep s = false →
  JsString.split_scan sep 0 cur s = [cur +:+ s].
Proof.
  revert cur. induction s as [|c s IH]; intros cur H.
  - cbn. by rewrite string_app_nil_r.
  - cbn in H. apply orb_false_elim in H as [Hhere Hrest].
    cbn [JsString.split_scan]. rewrite Hhere, (IH _ Hrest).
    by rewrite string_app_assoc.
Qed.

(** Splitting on a single character that the first piece does not have. *)
Lemma split_scan_char (c : Ascii.ascii) (cur lo rest : string) :
  JsString.has_char c lo = false →
  JsString.split_scan (String c "") 0 cur (lo +:+ String c rest) =
    (cur +:+ lo) :: JsString.split_scan (String c "") 0 "" rest.
Proof.
  revert cur. induction lo as [|x lo IH]; intros cur H.
  - change ("" +:+ String c rest) with (String c rest).
    cbn. by rewrite Ascii.eqb_refl, string_app_nil_r.
  - cbn in H. apply orb_false_elim in H as [Hx Hlo].
    rewrite string_app_cons, split_scan_cons, starts_with_cons.
    rewrite Hx. cbn [andb]. rewrite (IH _ Hlo). by rewrite string_app_assoc.
Qed.

(** Splitting [lo-*] on ["-*"] when [lo] has no star. *)
Lemma split_scan_above (cur lo : string) :
  JsString.has_char "*"%char lo = false →
  JsString.split_scan "-*" 0 cur (lo +:+ "-*") = [cur +:+ lo; ""].
Proof.
  revert cur. induction lo as [|x lo IH]; intros cur H.
  - cbn. by rewrite string_app_nil_r.
  - cbn in H. apply orb_false_elim in H as [Hx Hlo].
    rewrite string_app_cons, split_scan_cons, starts_with_cons.
    assert (JsString.starts_with "*" (lo +:+ "-*") = false) as ->.
    { destruct lo as [|y lo]; [done|]. cbn in Hlo.
      apply orb_false_elim in Hlo as [Hy _].
      rewrite string_app_cons. cbn. by rewrite Hy. }
    rewrite andb_false_r. rewrite (IH _ Hlo). by rewrite string_app_assoc.
Qed.

(** ** The Gene screen: price ranges *)

Lemma has_char_head (c : ascii) (s rest : string) :
  JsString.has_char c s = false → s ≠ String c rest.
Proof. intros H ->. cbn in H. by rewrite Ascii.eqb_refl in H. Qed.

(** The shapes of a range, as [priceRangeToHumanReadableString] tells them
    apart. *)

Lemma above_is_not_any (lo : string) :
  JsString.has_char "*" lo = false → (lo +:+ "-*" =? "*-*")%string = false.
Proof.
  intros Hlo. apply String.eqb_neq. destruct lo as [|c lo]; [done|].
  rewrite string_app_cons. intros [= -> _].
  by apply (has_char_head "*" _ lo) in Hlo.
Qed.

Lemma below_is_not_any (hi : string) :
  JsString.has_char "*" hi = false → ("*-" +:+ hi =? "*-*")%string = false.
Proof.
  intros Hhi. apply String.eqb_neq. intros Heq.
  change ("*-" +:+ hi) with (String "*" (String "-" hi)) in Heq.
  injection Heq as ->. done.
Qed.

Lemma includes_above (lo : string) :
  JsString.includes "-*" (lo +:+ "-*") = true.
Proof. exact (includes_intro "-*" lo ""). Qed.

Lemma below_is_not_above (hi : string) :
  JsString.has_char "*" hi = false →
  JsString.includes "-*" ("*-" +:+ hi) = false.
Proof.
  intros Hhi. change ("*-" +:+ hi) with (String "*" (String "-" hi)). cbn.
  rewrite (includes_without_char "*" "-*" hi) by done.
  destruct hi as [|c hi]; [done|].
  cbn in Hhi. apply orb_false_elim in Hhi as [Hc _]. by rewrite Hc.
Qed.

Lemma includes_below (hi : string) :
  JsString.includes "*-" ("*-" +:+ hi) = true.
Proof. exact (includes_intro "*-" "" hi). Qed.

Lemma split_below (hi : string) :
  JsString.has_char "*" hi = false →
  JsString.split "*-" ("*-" +:+ hi) = [""; hi].
Proof.
  intros Hhi. unfold JsString.split.
  change ("*-" +:+ hi) with (String "*" (String "-" hi)).
  rewrite split_scan_cons. cbn.
  by rewrite split_scan_no_match by by apply (includes_without_char "*").
Qed.

Section GenePriceRange.

Context {JsNumber : Type}.
Variable parseInt10 : option string → JsNumber.
Variable toLocaleString_USD : JsNumber → string.

Local Abbreviation dollars := (Gene.dollars parseInt10 toLocaleString_USD).
Local Abbreviation priceRange :=
  (Gene.priceRangeToHumanReadableString parseInt10 toLocaleString_USD).

(** X11: an open-ended range [lo-*] whose lower bound has no star reads
    "Above" the lower bound. *)
Theorem price_range_above (lo : string) :
  JsString.has_char "*" lo = false →
  priceRange (lo +:+ "-*") = "Above " +:+ dollars (Some lo).
Proof.
  intros Hlo. unfold Gene.priceRangeToHumanReadableString.
  rewrite above_is_not_any, includes_above by done.
  unfold JsString.split. by rewrite split_scan_above.
Qed.

(** X12: a range [*-hi] whose upper bound has no star reads "Below" the
    upper bound. *)
Theorem price_range_below (hi : string) :
  JsString.has_char "*" hi = false →
  priceRange ("*-" +:+ hi) = "Below " +:+ dollars (Some hi).
Proof.
  intros Hhi. unfold Gene.priceRangeToHumanReadableString.
  rewrite below_is_not_any, below_is_not_above, includes_below by done.
  by rewrite split_below.
Qed.

(** X13: a closed range [lo-hi] whose bounds have neither star nor dash reads
    as the two bounds, in that order. *)
Theorem price_range_between (lo hi : string) :
  JsString.has_char "*" lo = false → JsString.has_char "-" lo = false →
  JsString.has_char "*" hi = false → JsString.has_char "-" hi = false →
  priceRange (lo +:+ "-" +:+ hi) =
    dollars (Some lo) +:+ " - " +:+ dollars (Some hi).
Proof.
  intros Hlo Hlo' Hhi Hhi'. unfold Gene.priceRangeToHumanReadableString.
  assert (JsString.has_char "*" (lo +:+ "-" +:+ hi) = false) as Hstar.
  { by rewrite !has_char_app, Hlo, Hhi. }
  assert ((lo +:+ "-" +:+ hi =? "*-*")%string = false) as ->.
  { apply String.eqb_neq. intros Heq. rewrite Heq in Hstar. done. }
  rewrite (includes_without_char "*" "-*"), (includes_without_char "*" "*-")
    by done.
  unfold JsString.split. change ("-" +:+ hi) with (String "-" hi).
  rewrite split_scan_char by done.
  rewrite split_scan_no_match by by apply (includes_without_char "-").
  done.
Qed.

(** X14: a range with neither star nor dash has no second piece: the upper
    bound is formatted from [undefined]. *)
Theorem price_range_without_dash (range : string) :
  JsString.has_char "*" range = false → JsString.has_char "-" range = false →
  priceRange range = dollars (Some range) +:+ " - " +:+ dollars None.
Proof.
  intros Hstar Hdash. unfold Gene.priceRangeToHumanReadableString.
  assert ((range =? "*-*")%string = false) as ->.
  { apply String.eqb_neq. intros ->. done. }
  rewrite (includes_without_char "*" "-*"), (includes_without_char "*" "*-")
    by done.
  unfold JsString.split.
  rewrite split_scan_no_match by by apply (includes_without_char "-").
  done.
Qed.

End GenePriceRange.

Lemma price_range_above_witness :
  Gene.priceRangeToHumanReadableString sample_parseInt sample_USD "50000-*" =
    "Above $50000".
Proof. exact (price_range_above sample_parseInt sample_USD "50000" eq_refl). Defined.

Lemma price_range_below_witness :
  Gene.priceRangeToHumanReadableString sample_parseInt sample_USD "*-1000" =
    "Below $1000".
Proof. exact (price_range_below sample_parseInt sample_USD "1000" eq_refl). Defined.

Lemma price_range_between_witness :
  Gene.priceRangeToHumanReadableString sample_parseInt sample_USD "1000-5000" =
    "$1000 - $5000".
Proof.
  exact (price_range_between sample_parseInt sample_USD "1000" "5000"
           eq_refl eq_refl eq_refl eq_refl).
Defined.

Lemma price_range_without_dash_witness :
  Gene.priceRangeToHumanReadableString sample_parseInt sample_USD "1000" =
    "$1000 - $NaN".
Proof.
  exact (price_range_without_dash sample_parseInt sample_USD "1000"
           eq_refl eq_refl).
Defined.

(** ** The Gene screen: tabs and the sticky header *)

Section GeneTabs.

Context {JsNumber : Type}.
Implicit Types this : Gene.Component JsNumber.

Lemma selectedTabTitle_cases this :
  (Gene.selectedTabIndex (Gene.state this) = 0%Z ∧
   Gene.selectedTabTitle this = Some Gene.TABS_WORKS) ∨
  (Gene.selectedTabIndex (Gene.state this) = 1%Z ∧
   Gene.selectedTabTitle this = Some Gene.TABS_ABOUT) ∨
  (Gene.selectedTabIndex (Gene.state this) ≠ 0%Z ∧
   Gene.selectedTabIndex (Gene.state this) ≠ 1%Z ∧
   Gene.selectedTabTitle this = None).
Proof.
  unfold Gene.selectedTabTitle.
  destruct (Gene.selectedTabIndex (Gene.state this)) as [|p|p] eqn:E; cbn.
  - by left.
  - destruct (decide (p = 1%positive)) as [->|Hp]; [right; by left|].
    right; right. split; [done|]. split; [congruence|].
    apply lookup_ge_None. cbn. lia.
  - right; right. done.
Qed.

Lemma showingArtworksSection_iff this :
  Gene.showingArtworksSection this = true ↔
  Gene.selectedTabIndex (Gene.state this) = 0%Z.
Proof.
  unfold Gene.showingArtworksSection.
  destruct (selectedTabTitle_cases this) as [[E ->]|[[E ->]|(E0 & E1 & ->)]];
    cbn; rewrite ?E; split; done || lia.
Qed.

(** X16: the section under the tabs is rendered for the two tabs there are and
    for nothing else: an index other than 0 and 1 renders [undefined];
    index 0 renders the artworks, index 1 the about section. *)
Theorem gene_section_for_tab this :
  (Gene.renderSectionForTab this = Gene.JsxUndefined ↔
     Gene.selectedTabIndex (Gene.state this) ≠ 0%Z ∧
     Gene.selectedTabIndex (Gene.state this) ≠ 1%Z) ∧
  (Gene.selectedTabIndex (Gene.state this) = 0%Z →
     ∃ attrs, Gene.renderSectionForTab this = Gene.JsxEl _ "Artworks" attrs []) ∧
  (Gene.selectedTabIndex (Gene.state this) = 1%Z →
     ∃ attrs, Gene.renderSectionForTab this = Gene.JsxEl _ "About" attrs []).
Proof.
  unfold Gene.renderSectionForTab.
  destruct (selectedTabTitle_cases this) as [[E ->]|[[E ->]|(E0 & E1 & ->)]];
    cbn; rewrite ?E.
  - split; [split; [done|lia]|]. split; [eauto|done].
  - split; [split; [done|lia]|]. split; [done|eauto].
  - split; [done|]. split; intros; congruence.
Qed.

(** X17: the three things that make up the sticky header stand or fall
    together: the header height is [null], the sticky header renders
    [null] and the refine section renders [null] exactly when the selected
    tab is not the artworks tab (index 0); on the artworks tab the height
    is 64. *)
Theorem gene_sticky_header_consistent
    (parseInt10 : option string → JsNumber)
    (toLocaleString toLocaleString_USD : JsNumber → string)
    (startCase : string → string) (window_width : Z) (gray_regular : string)
    this :
  (Gene.stickyHeaderHeight this = None ↔
     Gene.selectedTabIndex (Gene.state this) ≠ 0%Z) ∧
  (Gene.renderStickyHeader window_width this = Gene.JsxNull ↔
     Gene.selectedTabIndex (Gene.state this) ≠ 0%Z) ∧
  (Gene.renderStickyRefineSection parseInt10 toLocaleString toLocaleString_USD
     startCase window_width gray_regular this = Gene.JsxNull ↔
     Gene.selectedTabIndex (Gene.state this) ≠ 0%Z) ∧
  (Gene.selectedTabIndex (Gene.state this) = 0%Z →
     Gene.stickyHeaderHeight this = Some 64%Z).
Proof.
  unfold Gene.stickyHeaderHeight, Gene.renderStickyHeader,
    Gene.renderStickyRefineSection.
  pose proof (showingArtworksSection_iff this) as Hiff.
  destruct (Gene.showingArtworksSection this); cbn.
  - assert (Gene.selectedTabIndex (Gene.state this) = 0%Z) as E by by apply Hiff.
    rewrite E. repeat split; done.
  - assert (Gene.selectedTabIndex (Gene.state this) ≠ 0%Z) as E.
    { intros E. by apply Hiff in E. }
    repeat split; done.
Qed.

(** X18: selecting a tab by its position shows that tab's title, whatever was
    selected before, and leaves the props and the sticky-header flag
    alone; it costs one [setState]. *)
Theorem gene_switch_selection (i : nat) (title : string) this :
  Gene.availableTabs !! i = Some title →
  let this' := Gene.switchSelectionDidChange (Z.of_nat i) this in
  Gene.selectedTabTitle this' = Some title ∧
  Gene.showingStickyHeader (Gene.state this') =
    Gene.showingStickyHeader (Gene.state this) ∧
  Gene.props this' = Gene.props this ∧
  Gene.setState_calls this' = S (Gene.setState_calls this).
Proof.
  intros Hi this'. subst this'. split; [|done].
  unfold Gene.selectedTabTitle. cbn.
  assert ((Z.of_nat i <? 0)%Z = false) as -> by (apply Z.ltb_ge; lia).
  by rewrite Nat2Z.id.
Qed.

(** X19: reporting the header's visibility records what was reported and keeps
    the selected tab; reporting what is already recorded changes nothing
    and calls no [setState], so repeating a report is the same as making it
    once. *)
Theorem gene_header_visibility_idempotent (sticky : Gene.Prim) this :
  let this' := Gene.onChangeHeaderVisibility sticky this in
  Gene.showingStickyHeader (Gene.state this') = sticky ∧
  Gene.selectedTabIndex (Gene.state this') =
    Gene.selectedTabIndex (Gene.state this) ∧
  Gene.props this' = Gene.props this ∧
  (Gene.showingStickyHeader (Gene.state this) = sticky → this' = this) ∧
  (Gene.showingStickyHeader (Gene.state this) ≠ sticky →
     Gene.setState_calls this' = S (Gene.setState_calls this)) ∧
  Gene.onChangeHeaderVisibility sticky this' = this'.
Proof.
  cbn zeta. unfold Gene.onChangeHeaderVisibility, Gene.strict_eq.
  destruct (decide (Gene.showingStickyHeader (Gene.state this) = sticky))
    as [E|E].
  - rewrite !bool_decide_eq_true_2 by done. cbn. done.
  - rewrite !bool_decide_eq_false_2 by done. cbn.
    rewrite !bool_decide_eq_true_2 by done. done.
Qed.


End GeneTabs.

(** ** The Gene screen: the summary line *)

(** X15: with the medium left at its fallback, the summary under the header is
    the count of works alone while the price range is at its fallback too,
    and the count followed by the readable range otherwise. *)
Theorem gene_summary_string {JsNumber : Type}
    (parseInt10 : option string → JsNumber)
    (toLocaleString toLocaleString_USD : JsNumber → string)
    (startCase : string → string) (this : Gene.Component JsNumber) :
  Gene.medium (Gene.props this) = Gene.initialVariables_medium →
  let summary :=
    Gene.artworkQuerySummaryString parseInt10 toLocaleString
      toLocaleString_USD startCase this in
  let works :=
    toLocaleString (Gene.filtered_artworks_total (Gene.gene (Gene.props this))) in
  (Gene.price_range (Gene.props this) = Gene.initialVariables_price_range →
     summary = works +:+ " works") ∧
  (∀ lo, JsString.has_char "*" lo = false →
     Gene.price_range (Gene.props this) = lo +:+ "-*" →
     summary = works +:+ " works" +:+ " ・ " +:+ "Above " +:+
               Gene.dollars parseInt10 toLocaleString_USD (Some lo)) ∧
  (∀ hi, JsString.has_char "*" hi = false →
     Gene.price_range (Gene.props this) = "*-" +:+ hi →
     summary = works +:+ " works" +:+ " ・ " +:+ "Below " +:+
               Gene.dollars parseInt10 toLocaleString_USD (Some hi)).
Proof.
  intros Hmedium summary works. subst summary works.
  unfold Gene.artworkQuerySummaryString. rewrite Hmedium.
  change (Gene.initialVariables_medium =? "*")%string with true. cbv iota.
  split; [|split].
  - intros ->. done.
  - intros lo Hlo ->. unfold Gene.priceRangeToHumanReadableString.
    rewrite above_is_not_any, includes_above by done.
    unfold JsString.split. by rewrite split_scan_above.
  - intros hi Hhi ->. unfold Gene.priceRangeToHumanReadableString.
    rewrite below_is_not_any, below_is_not_above, includes_below by done.
    by rewrite split_below.
Qed.

Lemma gene_summary_string_witness :
  Gene.artworkQuerySummaryString sample_parseInt (default "NaN") sample_USD id
    (sample_gene "*-1000") = "1204 works ・ Below $1000".
Proof.
  exact (proj2 (proj2 (gene_summary_string sample_parseInt (default "NaN")
                         sample_USD id (sample_gene "*-1000") eq_refl))
           "1000" eq_refl eq_refl).
Defined.

(** ** The test set-up's console filter *)

Lemma app_singleton_neq {A} (l : list A) (x : A) : l ++ [x] ≠ l.
Proof.
  intros H. apply (f_equal length) in H. rewrite length_app in H. cbn in H. lia.
Qed.

(** X8: the replacement [console.error] swallows a call exactly when its first
    argument is a string in which one of the four phrases occurs
    somewhere. *)
Theorem jest_console_error_swallows (args : list JsValue)
    (original : list (list JsValue)) :
  SetupJest.console_error args original = original ↔
  ∃ m phrase pre post,
    head args = Some (JStr m) ∧ phrase ∈ SetupJest.silenced ∧
    m = pre +:+ phrase +:+ post.
Proof.
  unfold SetupJest.console_error, SetupJest.silenced. split.
  - destruct (head args) as [[]|] eqn:Hhead; cbn;
      try (intros H; by apply app_singleton_neq in H).
    match goal with |- context [if ?c then _ else _] => destruct c eqn:Hc end;
      [|intros H; by apply app_singleton_neq in H].
    intros _. repeat apply orb_prop in Hc as [Hc|Hc];
      destruct (includes_elim _ _ Hc) as (pre & post & ->);
      eexists _, _, pre, post; (split; [done|]); (split; [|done]);
      set_solver.
  - intros (m & phrase & pre & post & -> & Hin & ->). cbn.
    assert (JsString.includes phrase (pre +:+ phrase +:+ post) = true) as Hinc
      by apply includes_intro.
    repeat (apply elem_of_cons in Hin as [->|Hin]);
      [rewrite Hinc, ?orb_true_r; done..|].
    by apply elem_of_nil in Hin.
Qed.

(** X9: a call that is not swallowed reaches the original console as one call
    with the first argument alone: further arguments are dropped, and a
    call without arguments passes [undefined]. *)
Theorem jest_console_error_forwards_first_argument (message : JsValue)
    (rest : list JsValue) (original : list (list JsValue)) :
  SetupJest.console_error (message :: rest) original =
    SetupJest.console_error [message] original ∧
  (SetupJest.console_error (message :: rest) original = original ∨
   SetupJest.console_error (message :: rest) original =
     original ++ [[message]]) ∧
  ((∀ m, message ≠ JStr m) →
     SetupJest.console_error (message :: rest) original =
       original ++ [[message]]) ∧
  SetupJest.console_error [] original = original ++ [[JUndefined]].
Proof.
  unfold SetupJest.console_error. cbn.
  split; [done|]. split; [|split; [|done]].
  - destruct message; auto.
    match goal with |- context [if ?c then _ else _] => destruct c end; auto.
  - intros Hns. destruct message; try done. by destruct (Hns s).
Qed.

Lemma jest_console_error_forwards_first_argument_witness :
  SetupJest.console_error [JStr "Metaphysics Error: timeout"; JObj []] [] =
    [[JStr "Metaphysics Error: timeout"]] ∧
  SetupJest.console_error [JNum 404; JStr "not found"] [] = [[JNum 404]].
Proof.
  split.
  - reflexivity.
  - apply (proj1 (proj2 (proj2 (jest_console_error_forwards_first_argument
                                  (JNum 404) [JStr "not found"] [])))).
    intros m. discriminate.
Defined.

(** ** The tracking schema: distinct values *)

(** X10: no two members of [PageNames], of [ActionTypes] or of [ActionNames]
    stand for the same string. *)
Theorem schema_enum_values_distinct :
  Inj (=) (=) Schema.PageNames_value ∧
  Inj (=) (=) Schema.ActionTypes_value ∧
  Inj (=) (=) Schema.ActionNames_value.
Proof.
  split; [|split]; intros x y; destruct x, y; cbn; congruence.
Qed.

(** ** The resolver over a history of calls *)

Section ResolverHistory.

Variable JSON_parse : JsValue → Completion JsValue.
Variable Container : string.
Variable initialProps : option Props.

Local Abbreviation r := (makeResolver JSON_parse Container initialProps).

(** What one read state adds to the console. *)
Local Abbreviation added_by :=
  (λ rs : ReadyState,
     match error rs with Some err => logged JSON_parse err | None => [] end).

Lemma call_run (rs : ReadyState) (σ : Store) :
  ∃ el, call r rs σ =
    (Normal (Some el),
     {| retrying := xorb (retrying σ) (bool_decide (is_Some (error rs)));
        console := console σ ++ added_by rs |}).
Proof.
  cbn [call makeResolver]. destruct (error rs) as [err|] eqn:Herr.
  - rewrite (resolve_error_run _ _ _ _ _ _ Herr). eexists.
    rewrite bool_decide_eq_true_2 by eauto.
    by rewrite xorb_true_r.
  - rewrite (resolve_no_error_run _ _ _ _ _ Herr). eexists.
    rewrite bool_decide_eq_false_2 by (by intros [? ?]).
    rewrite xorb_false_r, app_nil_r. by destruct σ.
Qed.

Lemma calls_cons (rs : ReadyState) (rest : list ReadyState) (σ : Store) :
  calls r (rs :: rest) σ =
    (fst (call r rs σ) :: fst (calls r rest (snd (call r rs σ))),
     snd (calls r rest (snd (call r rs σ)))).
Proof.
  change (calls r (rs :: rest) σ)
    with (let '(out, σ') := call r rs σ in
          let '(outs, σ'') := calls r rest σ' in (out :: outs, σ'')).
  destruct (call r rs σ) as [out σ']. cbn [fst snd].
  by destruct (calls r rest σ').
Qed.

Lemma calls_app (pre post : list ReadyState) (σ : Store) :
  calls r (pre ++ post) σ =
    (fst (calls r pre σ) ++ fst (calls r post (snd (calls r pre σ))),
     snd (calls r post (snd (calls r pre σ)))).
Proof.
  revert σ. induction pre as [|rs pre IH]; intros σ.
  - cbn. by destruct (calls r post σ).
  - rewrite <- app_comm_cons, !calls_cons, IH. done.
Qed.

Lemma errors_in_cons (rs : ReadyState) (rest : list ReadyState) :
  errors_in (rs :: rest) =
    (if bool_decide (is_Some (error rs)) then 1 else 0) + errors_in rest.
Proof.
  unfold errors_in. rewrite filter_cons.
  destruct (decide (is_Some (error rs))).
  - by rewrite bool_decide_eq_true_2.
  - by rewrite bool_decide_eq_false_2.
Qed.

Lemma calls_run (inputs : list ReadyState) (σ : Store) :
  snd (calls r inputs σ) =
    {| retrying := xorb (retrying σ) (Nat.odd (errors_in inputs));
       console := console σ ++ (inputs ≫= added_by) |}.
Proof.
  revert σ. induction inputs as [|rs inputs IH]; intros σ.
  - cbn. rewrite xorb_false_r, app_nil_r. by destruct σ.
  - rewrite calls_cons. cbn [snd]. rewrite IH.
    destruct (call_run rs σ) as [el ->]. cbn [snd retrying console].
    rewrite errors_in_cons, <- app_assoc. f_equal.
    destruct (bool_decide (is_Some (error rs))).
    + change (1 + errors_in inputs) with (S (errors_in inputs)).
      rewrite Nat.odd_succ, <- Nat.negb_odd.
      by destruct (retrying σ), (Nat.odd (errors_in inputs)).
    + by rewrite xorb_false_r.
Qed.

(** X1: after any history of calls, from any store, the captured flag has been
    negated once per error read state: from a fresh resolver it is set
    exactly when an odd number of errors has been seen.  Every call of the
    history ended normally with an element. *)
Theorem resolver_flag_is_error_parity (inputs : list ReadyState) (σ : Store) :
  retrying (snd (calls r inputs σ)) =
    xorb (retrying σ) (Nat.odd (errors_in inputs)) ∧
  (∀ con, retrying (snd (calls r inputs (fresh r con))) =
            Nat.odd (errors_in inputs)) ∧
  length (fst (calls r inputs σ)) = length inputs ∧
  Forall (λ out, ∃ el, out = Normal (Some el)) (fst (calls r inputs σ)).
Proof.
  split; [by rewrite calls_run|]. split; [intros con; by rewrite calls_run|].
  revert σ. induction inputs as [|rs inputs IH]; intros σ.
  - by cbn.
  - rewrite calls_cons. cbn [fst length].
    destruct (IH (snd (call r rs σ))) as [Hlen Hall].
    split; [by rewrite Hlen|]. constructor; [|done].
    destruct (call_run rs σ) as [el ->]. by exists el.
Qed.

(** X2: the answer to an error depends on the history only through the number
    of errors before it: after an even number the failure view carries the
    retry callback, after an odd number it does not, however many props or
    loading states came in between. *)
Theorem resolver_error_after_history (pre : list ReadyState)
    (rs : ReadyState) (err : JsError) (con : list LogEntry) :
  error rs = Some err →
  fst (calls r (pre ++ [rs]) (fresh r con)) =
    fst (calls r pre (fresh r con)) ++
    [ Normal (Some (createElement LoadFailureView
                      (if Nat.odd (errors_in pre)
                       then {[ "style" := flex1 ]}
                       else <["onRetry" := retry rs]> {[ "style" := flex1 ]}))) ].
Proof.
  intros Herr. rewrite calls_app. cbn [fst]. f_equal.
  rewrite calls_run, calls_cons. cbn [fst calls call makeResolver].
  by rewrite (resolve_error_run _ _ _ _ _ _ Herr).
Qed.

(** X3: the console only grows: a history of calls appends to what was there,
    at most one entry per error read state and nothing when there was no
    error. *)
Theorem resolver_console_only_grows (inputs : list ReadyState) (σ : Store) :
  ∃ added,
    console (snd (calls r inputs σ)) = console σ ++ added ∧
    (length added ≤ errors_in inputs)%nat ∧
    (errors_in inputs = 0 → added = []).
Proof.
  exists (inputs ≫= added_by). split; [by rewrite calls_run|].
  assert (length (inputs ≫= added_by) ≤ errors_in inputs)%nat as Hlen.
  { induction inputs as [|rs inputs IH]; [done|].
    rewrite bind_cons, length_app, errors_in_cons.
    destruct (error rs) as [err|] eqn:Herr.
    - rewrite bool_decide_eq_true_2 by eauto.
      assert (length (logged JSON_parse err) ≤ 1)%nat; [|lia].
      unfold logged. destruct (response err) as [resp|]; [|cbn; lia].
      destruct (truthy (_bodyInit resp)); cbn; lia.
    - cbn. lia. }
  split; [done|]. intros Hzero. rewrite Hzero in Hlen.
  destruct (inputs ≫= added_by); [done|cbn in Hlen; lia].
Qed.

(** X4: an error that carries no response, or a response whose body is falsy
    (absent, or the empty string), is answered with the failure view and
    nothing is written to the console. *)
Theorem resolver_error_without_body_is_silent (rs : ReadyState)
    (err : JsError) (σ : Store) :
  error rs = Some err →
  (response err = None ∨
   ∃ resp, response err = Some resp ∧ truthy (_bodyInit resp) = false) →
  console (snd (call r rs σ)) = console σ ∧
  ∃ el, fst (call r rs σ) = Normal (Some el) ∧ el_type el = LoadFailureView.
Proof.
  intros Herr Hbody. cbn [call makeResolver].
  rewrite (resolve_error_run _ _ _ _ _ _ Herr). cbn [fst snd console].
  split; [|by eexists].
  unfold logged. destruct Hbody as [->|(resp & -> & ->)]; by rewrite app_nil_r.
Qed.


End ResolverHistory.

(** X6: while an error is present the delivered props, the container and the
    initial props play no part: the output is the failure view that the
    error, the retry callback and the flag determine. *)
Theorem resolver_error_takes_precedence
    (JSON_parse : JsValue → Completion JsValue)
    (Container Container' : string) (initialProps initialProps' : option Props)
    (rs rs' : ReadyState) (err : JsError) (σ : Store) :
  error rs = Some err → error rs' = Some err → retry rs' = retry rs →
  call (makeResolver JSON_parse Container' initialProps') rs' σ =
    call (makeResolver JSON_parse Container initialProps) rs σ ∧
  ∃ el, fst (call (makeResolver JSON_parse Container initialProps) rs σ) =
          Normal (Some el) ∧ el_type el = LoadFailureView.
Proof.
  intros Herr Herr' Hretry. cbn [call makeResolver].
  rewrite (resolve_error_run _ _ _ _ _ _ Herr),
    (resolve_error_run _ _ _ _ _ _ Herr'), Hretry.
  split; [done|]. by eexists.
Qed.


(** ** Examples of the resolver over a history *)

Lemma resolver_error_after_history_witness :
  let r := makeResolver sample_parse "Gene" None in
  fst (calls r ([sample_error "{}"; sample_loading; sample_props ∅;
                 sample_error "{}"; sample_loading] ++ [sample_error "{}"])
         (fresh r [])) =
    fst (calls r [sample_error "{}"; sample_loading; sample_props ∅;
                  sample_error "{}"; sample_loading] (fresh r [])) ++
    [ Normal (Some (createElement LoadFailureView
                      (<["onRetry" := JFun 7]> {[ "style" := flex1 ]}))) ].
Proof.
  exact (resolver_error_after_history sample_parse "Gene" None
           [sample_error "{}"; sample_loading; sample_props ∅;
            sample_error "{}"; sample_loading]
           (sample_error "{}") _ [] eq_refl).
Defined.

Lemma resolver_error_without_body_is_silent_witness :
  console (snd (call (makeResolver sample_parse "Gene" None) (sample_error "")
                  {| retrying := false; console := [] |})) = [].
Proof.
  refine (proj1 (resolver_error_without_body_is_silent sample_parse "Gene" None
                   (sample_error "") _ {| retrying := false; console := [] |}
                   eq_refl _)).
  right. eexists. split; reflexivity.
Defined.


Lemma resolver_error_takes_precedence_witness :
  call (makeResolver sample_parse "Artist" (Some {[ "a" := JNum 1 ]}))
    {| error := error (sample_error "{}");
       props := Some {[ "b" := JNum 2 ]};
       retry := JFun 7 |}
    {| retrying := false; console := [] |} =
  call (makeResolver sample_parse "Gene" None) (sample_error "{}")
    {| retrying := false; console := [] |}.
Proof.
  exact (proj1 (resolver_error_takes_precedence sample_parse "Gene" "Artist"
                  None (Some {[ "a" := JNum 1 ]}) (sample_error "{}")
                  {| error := error (sample_error "{}");
                     props := Some {[ "b" := JNum 2 ]};
                     retry := JFun 7 |}
                  _ {| retrying := false; console := [] |}
                  eq_refl eq_refl eq_refl)).
Defined.


(** ** Examples of the Gene screen *)

Lemma gene_switch_selection_witness :
  Gene.selectedTabTitle
    (Gene.switchSelectionDidChange 1 (sample_gene "*-*")) = Some "ABOUT".
Proof.
  exact (proj1 (gene_switch_selection 1 "ABOUT" (sample_gene "*-*") eq_refl)).
Defined.

(** A screen that has just mounted shows the artworks tab with its sticky
    header and no extra margin; the first report that the header is
    sticky, made with [true], is taken for a change (the state holds the
    number 1) and costs a [setState] that moves no margin, while a report
    made with 1 costs nothing. *)
Example gene_mounted_then_first_report {JsNumber : Type}
    (this : Gene.Component JsNumber) :
  let mounted := Gene.componentWillMount this in
  Gene.selectedTabTitle mounted = Some Gene.TABS_WORKS ∧
  Gene.stickyHeaderHeight mounted = Some Gene.HeaderHeight ∧
  Gene.topMargin mounted = 0%Z ∧
  Gene.setState_calls (Gene.onChangeHeaderVisibility (Gene.PBool true) mounted) =
    S (Gene.setState_calls this) ∧
  Gene.topMargin (Gene.onChangeHeaderVisibility (Gene.PBool true) mounted) = 0%Z ∧
  Gene.stickyTopMargin
    (Gene.onChangeHeaderVisibility (Gene.PBool true) mounted) = 0%Z ∧
  Gene.onChangeHeaderVisibility (Gene.PNum 1) mounted = mounted.
Proof. cbn zeta. repeat split. Qed.
